(** * go-logger: a zap-based logging facade

    Shallow embedding of [logger/logger.go]: the package-level variables
    [Log], [serviceName] and [envName], and the functions [Init],
    [ensureDefaultInit], [New] and [Sync].

    Go strings are byte sequences and are modelled as [string]; the nil
    pointer and the nil error are [None].  The package state is threaded
    explicitly through a small state monad whose computations may also
    panic, as [Log.With] does on a nil receiver. *)

From Stdlib Require Import ZArith String Ascii List Bool Lia.
Import ListNotations.
Local Open Scope string_scope.
Set Warnings "-register-all".

(** ** Severities ([zapcore.Level], an int8) *)

Inductive Level : Type :=
| DebugLevel | InfoLevel | WarnLevel | ErrorLevel
| DPanicLevel | PanicLevel | FatalLevel.

Definition Level_int8 (l : Level) : Z :=
  match l with
  | DebugLevel => -1
  | InfoLevel => 0
  | WarnLevel => 1
  | ErrorLevel => 2
  | DPanicLevel => 3
  | PanicLevel => 4
  | FatalLevel => 5
  end%Z.

(** [Level.Enabled]: a level used as a [LevelEnabler] lets through every
    record at or above it.  The enabler is kept as its int8 value, so that
    zap's "never" threshold [FatalLevel + 1] is representable. *)
Definition Enabled (threshold : Z) (lvl : Level) : bool :=
  (threshold <=? Level_int8 lvl)%Z.

(** ** Errors

    The dynamic types of error values the facade builds or can be handed by
    the engine, with the unwrapping structure [errors.Is] walks. *)

Inductive error : Type :=
| Errno (code : Z)
| errorString (msg : string)
| fmtError (format : string) (operands : list string)
| wrapError (format : string) (operands : list string) (err : error)
| PathError (op path : string) (err : error)
| joinError (errs : list error).

Definition EPIPE : Z := 32.
Definition EINVAL : Z := 22.

(** [errors.Is err target] for a [syscall.Errno] target: the chain is walked
    through [Unwrap() error] and [Unwrap() []error]; an [Errno] matches by
    equality. *)
Fixpoint errors_Is (err : error) (target : Z) : bool :=
  match err with
  | Errno code => (code =? target)%Z
  | errorString _ => false
  | fmtError _ _ => false
  | wrapError _ _ inner => errors_Is inner target
  | PathError _ _ inner => errors_Is inner target
  | joinError errs =>
      (fix any (l : list error) : bool :=
         match l with
         | [] => false
         | e :: l' => errors_Is e target || any l'
         end) errs
  end.

(** [inChain err e]: [e] is [err] itself or is reached from it by
    unwrapping, the tree [errors.Is] searches. *)
Inductive inChain : error -> error -> Prop :=
| chain_here e : inChain e e
| chain_wrap format operands inner e :
    inChain inner e -> inChain (wrapError format operands inner) e
| chain_path op path inner e :
    inChain inner e -> inChain (PathError op path inner) e
| chain_join errs x e :
    In x errs -> inChain x e -> inChain (joinError errs) e.

Inductive result (A : Type) : Type :=
| Ok (a : A)
| Err (e : error).
Arguments Ok {A} a.
Arguments Err {A} e.

(** ** The logging engine's data, as far as the facade configures it *)

Inductive Encoding : Type := JSONEncoder | ConsoleEncoder.
Inductive TimeEncoder : Type := EpochTimeEncoder | RFC3339TimeEncoder.
Inductive WriteSyncer : Type := Stdout | Stderr.

Record EncoderConfig : Type := mkEncoderConfig {
  MessageKey : string;
  LevelKey : string;
  TimeKey : string;
  NameKey : string;
  CallerKey : string;
  StacktraceKey : string;
  EncodeTime : TimeEncoder
}.

(** [zap.NewProductionEncoderConfig]. *)
Definition NewProductionEncoderConfig : EncoderConfig :=
  {| MessageKey := "msg"; LevelKey := "level"; TimeKey := "ts";
     NameKey := "logger"; CallerKey := "caller";
     StacktraceKey := "stacktrace"; EncodeTime := EpochTimeEncoder |}.

Definition Field : Type := (string * string)%type.

Record Core : Type := mkCore {
  encoding : Encoding;
  encCfg : EncoderConfig;
  sink : WriteSyncer;
  minLevel : Level;
  context : list Field
}.

Definition NewCore (enc : Encoding * EncoderConfig) (ws : WriteSyncer)
    (lvl : Level) : Core :=
  {| encoding := fst enc; encCfg := snd enc; sink := ws; minLevel := lvl;
     context := [] |}.

Record Logger : Type := mkLogger {
  core : Core;
  addCaller : bool;
  addStack : Z
}.

Inductive Option : Type :=
| AddCaller
| AddStacktrace (lvl : Level).

Definition applyOption (l : Logger) (o : Option) : Logger :=
  match o with
  | AddCaller => {| core := core l; addCaller := true; addStack := addStack l |}
  | AddStacktrace lvl =>
      {| core := core l; addCaller := addCaller l; addStack := Level_int8 lvl |}
  end.

(** [zap.New]: no caller annotation and no stack traces unless an option
    asks for them. *)
Definition zap_New (c : Core) (opts : list Option) : Logger :=
  fold_left applyOption opts
    {| core := c; addCaller := false; addStack := Level_int8 FatalLevel + 1 |}.

Record SugaredLogger : Type := mkSugared { base : Logger }.

Definition Sugar (z : Logger) : SugaredLogger := {| base := z |}.

(** [SugaredLogger.With] with string keys: the child shares everything
    with its parent and carries the extra fields after the parent's. *)
Definition With (s : SugaredLogger) (kvs : list Field) : SugaredLogger :=
  let z := base s in
  let c := core z in
  {| base :=
       {| core := {| encoding := encoding c; encCfg := encCfg c;
                     sink := sink c; minLevel := minLevel c;
                     context := context c ++ kvs |};
          addCaller := addCaller z;
          addStack := addStack z |} |}.

Definition fields (s : SugaredLogger) : list Field := context (core (base s)).

(** What the engine puts on a record checked at [lvl]: nothing when the core
    filters the level out, otherwise the logger's fields, a caller location
    when [addCaller] is set, and a stack trace when [addStack] enables the
    level. *)
Record Entry : Type := mkEntry {
  entryLevel : Level;
  entryFields : list Field;
  hasCaller : bool;
  hasStack : bool
}.

Definition check (s : SugaredLogger) (lvl : Level) : option Entry :=
  let z := base s in
  if Enabled (Level_int8 (minLevel (core z))) lvl then
    Some {| entryLevel := lvl;
            entryFields := context (core z);
            hasCaller := addCaller z;
            hasStack := Enabled (addStack z) lvl |}
  else None.

(** ** Package state and its surroundings *)

Record Process : Type := mkProcess {
  Log : option SugaredLogger;
  serviceName : string;
  envName : string;
  (* zap's own global logger; None is the initial no-op logger *)
  globalL : option Logger;
  (* the process environment, and what syncing standard output reports *)
  environ : list (string * string);
  stdoutSync : option error
}.

Definition initialProcess (vars : list (string * string))
    (sync : option error) : Process :=
  {| Log := None; serviceName := ""; envName := ""; globalL := None;
     environ := vars; stdoutSync := sync |}.

Inductive outcome (A : Type) : Type :=
| Returned (a : A) (p : Process)
| Panicked (reason : string).
Arguments Returned {A} a p.
Arguments Panicked {A} reason.

Definition M (A : Type) : Type := Process -> outcome A.

Definition ret {A} (a : A) : M A := fun p => Returned a p.

Definition bind {A B} (m : M A) (k : A -> M B) : M B :=
  fun p =>
    match m p with
    | Returned a p' => k a p'
    | Panicked r => Panicked r
    end.

Definition panic {A} (reason : string) : M A := fun _ => Panicked reason.

Notation "x <- m ;; k" := (bind m (fun x => k))
  (at level 61, m at next level, right associativity).
Notation "m ;;; k" := (bind m (fun _ => k))
  (at level 61, right associativity).

Definition getLog : M (option SugaredLogger) := fun p => Returned (Log p) p.

Definition setLog (l : SugaredLogger) : M unit :=
  fun p =>
    Returned tt
      {| Log := Some l; serviceName := serviceName p; envName := envName p;
         globalL := globalL p; environ := environ p;
         stdoutSync := stdoutSync p |}.

Definition setIdentity (service env : string) : M unit :=
  fun p =>
    Returned tt
      {| Log := Log p; serviceName := service; envName := env;
         globalL := globalL p; environ := environ p;
         stdoutSync := stdoutSync p |}.

Definition getIdentity : M (string * string) :=
  fun p => Returned (serviceName p, envName p) p.

(** [zap.ReplaceGlobals]. *)
Definition ReplaceGlobals (z : Logger) : M unit :=
  fun p =>
    Returned tt
      {| Log := Log p; serviceName := serviceName p; envName := envName p;
         globalL := Some z; environ := environ p;
         stdoutSync := stdoutSync p |}.

(** [os.Getenv]: the value of the first binding, the empty string when the
    variable is not set. *)
Fixpoint lookupenv (key : string) (vars : list (string * string)) : string :=
  match vars with
  | [] => ""
  | (k, v) :: rest => if String.eqb k key then v else lookupenv key rest
  end.

Definition Getenv (key : string) : M string :=
  fun p => Returned (lookupenv key (environ p)) p.

(** [SugaredLogger.Sync]: flushing ends in syncing the sink. *)
Definition LoggerSync (s : SugaredLogger) : M (option error) :=
  fun p => Returned (stdoutSync p) p.

(** The host program acting between two calls of the facade: it may change
    the environment, and the state of standard output may change. *)
Definition hostSets (vars : list (string * string)) (sync : option error)
    : M unit :=
  fun p =>
    Returned tt
      {| Log := Log p; serviceName := serviceName p; envName := envName p;
         globalL := globalL p; environ := vars; stdoutSync := sync |}.

(** ** Library functions on ASCII text

    [strings.TrimSpace] and [strings.ToLower] as they act on strings of
    ASCII bytes, and [zapcore.Level.UnmarshalText] with zap's table of
    severity names.  The facade below is stated over arbitrary such
    functions; these are the ones its statements are evaluated with. *)

Definition asciiSpace (c : ascii) : bool :=
  let n := nat_of_ascii c in
  ((9 <=? n)%nat && (n <=? 13)%nat) || (n =? 32)%nat.

Fixpoint trimLeft (s : string) : string :=
  match s with
  | EmptyString => EmptyString
  | String c s' => if asciiSpace c then trimLeft s' else s
  end.

Fixpoint trimRight (s : string) : string :=
  match s with
  | EmptyString => EmptyString
  | String c s' =>
      match trimRight s' with
      | EmptyString => if asciiSpace c then EmptyString else String c EmptyString
      | t => String c t
      end
  end.

Definition strings_TrimSpace (s : string) : string := trimRight (trimLeft s).

Definition lowerByte (c : ascii) : ascii :=
  let n := nat_of_ascii c in
  if ((65 <=? n)%nat && (n <=? 90)%nat) then ascii_of_nat (n + 32) else c.

Fixpoint strings_ToLower (s : string) : string :=
  match s with
  | EmptyString => EmptyString
  | String c s' => String (lowerByte c) (strings_ToLower s')
  end.

Definition unmarshalText (text : string) : option Level :=
  if (text =? "debug") || (text =? "DEBUG") then Some DebugLevel
  else if (text =? "info") || (text =? "INFO") || (text =? "") then Some InfoLevel
  else if (text =? "warn") || (text =? "WARN") then Some WarnLevel
  else if (text =? "error") || (text =? "ERROR") then Some ErrorLevel
  else if (text =? "dpanic") || (text =? "DPANIC") then Some DPanicLevel
  else if (text =? "panic") || (text =? "PANIC") then Some PanicLevel
  else if (text =? "fatal") || (text =? "FATAL") then Some FatalLevel
  else None.

Definition Level_UnmarshalText (text : string) : result Level :=
  match unmarshalText text with
  | Some l => Ok l
  | None =>
      match unmarshalText (strings_ToLower text) with
      | Some l => Ok l
      | None => Err (fmtError "unrecognized level: %q" [text])
      end
  end.

(** ** The facade *)

Definition defaultLevel : string := "info".
Definition defaultService : string := "unknown-service".
Definition defaultEnv : string := "dev".

Definition setEncodeTime (c : EncoderConfig) (t : TimeEncoder) : EncoderConfig :=
  {| MessageKey := MessageKey c; LevelKey := LevelKey c; TimeKey := TimeKey c;
     NameKey := NameKey c; CallerKey := CallerKey c;
     StacktraceKey := StacktraceKey c; EncodeTime := t |}.

Definition setTimeKey (c : EncoderConfig) (k : string) : EncoderConfig :=
  {| MessageKey := MessageKey c; LevelKey := LevelKey c; TimeKey := k;
     NameKey := NameKey c; CallerKey := CallerKey c;
     StacktraceKey := StacktraceKey c; EncodeTime := EncodeTime c |}.

Definition setMessageKey (c : EncoderConfig) (k : string) : EncoderConfig :=
  {| MessageKey := k; LevelKey := LevelKey c; TimeKey := TimeKey c;
     NameKey := NameKey c; CallerKey := CallerKey c;
     StacktraceKey := StacktraceKey c; EncodeTime := EncodeTime c |}.

Definition setCallerKey (c : EncoderConfig) (k : string) : EncoderConfig :=
  {| MessageKey := MessageKey c; LevelKey := LevelKey c; TimeKey := TimeKey c;
     NameKey := NameKey c; CallerKey := k;
     StacktraceKey := StacktraceKey c; EncodeTime := EncodeTime c |}.

Definition setLevelKey (c : EncoderConfig) (k : string) : EncoderConfig :=
  {| MessageKey := MessageKey c; LevelKey := k; TimeKey := TimeKey c;
     NameKey := NameKey c; CallerKey := CallerKey c;
     StacktraceKey := StacktraceKey c; EncodeTime := EncodeTime c |}.

Definition NewJSONEncoder (c : EncoderConfig) : Encoding * EncoderConfig :=
  (JSONEncoder, c).

Definition AddSync (w : WriteSyncer) : WriteSyncer := w.

(** The calls a program makes on the package, for statements about
    sequences of them. *)
Inductive call : Type :=
| CallInit (level service env : string)
| CallNew (module : string)
| CallSync
| HostSets (vars : list (string * string)) (sync : option error).

(** The library functions [Init] calls: [strings.TrimSpace],
    [strings.ToLower] and [zapcore.Level.UnmarshalText]. *)
Class Library : Type := mkLibrary {
  TrimSpace : string -> string;
  ToLower : string -> string;
  UnmarshalText : string -> result Level
}.

Section Facade.

Context {lib : Library}.

Definition Init (level service env : string) : M (option error) :=
  let lvlStr := TrimSpace level in
  lvlStr <- (if lvlStr =? "" then
               v <- Getenv "LOG_LEVEL";; ret (TrimSpace v)
             else ret lvlStr);;
  let lvlStr := if lvlStr =? "" then defaultLevel else lvlStr in
  match UnmarshalText (ToLower lvlStr) with
  | Err err =>
      ret (Some (wrapError "invalid log level %q: %w" [lvlStr] err))
  | Ok zapLevel =>
      let service :=
        if TrimSpace service =? "" then defaultService else service in
      let env := if TrimSpace env =? "" then defaultEnv else env in
      setIdentity service env;;;
      let encCfg := NewProductionEncoderConfig in
      let encCfg := setEncodeTime encCfg RFC3339TimeEncoder in
      let encCfg := setTimeKey encCfg "ts" in
      let encCfg := setMessageKey encCfg "msg" in
      let encCfg := setCallerKey encCfg "caller" in
      let encCfg := setLevelKey encCfg "level" in
      let encoder := NewJSONEncoder encCfg in
      let ws := AddSync Stdout in
      let core := NewCore encoder ws zapLevel in
      let z := zap_New core [AddCaller; AddStacktrace ErrorLevel] in
      names <- getIdentity;;
      let l := With (Sugar z)
                 [("service", fst names); ("env", snd names)] in
      setLog l;;;
      ReplaceGlobals z;;;
      ret None
  end.

Definition ensureDefaultInit : M unit :=
  l <- getLog;;
  match l with
  | Some _ => ret tt
  | None => Init defaultLevel defaultService defaultEnv;;; ret tt
  end.

Definition New (module : string) : M SugaredLogger :=
  ensureDefaultInit;;;
  l <- getLog;;
  match l with
  | None => panic "invalid memory address or nil pointer dereference"
  | Some l => ret (With l [("module", module)])
  end.

Definition Sync : M (option error) :=
  l <- getLog;;
  match l with
  | None => ret None
  | Some l =>
      r <- LoggerSync l;;
      match r with
      | Some err => if errors_Is err EPIPE then ret None else ret (Some err)
      | None => ret None
      end
  end.

(** Replaying a sequence of calls, remembering the service and env
    arguments of the latest initialization that returned nil; the lazy
    initialization inside [New] counts with the arguments it passes. *)
Fixpoint replay (cs : list call) (last : option (string * string))
    : M (option (string * string)) :=
  match cs with
  | [] => ret last
  | CallInit level service env :: cs' =>
      err <- Init level service env;;
      replay cs' (match err with
                  | None => Some (service, env)
                  | Some _ => last
                  end)
  | CallNew module :: cs' =>
      before <- getLog;;
      New module;;;
      replay cs' (match before with
                  | None => Some (defaultService, defaultEnv)
                  | Some _ => last
                  end)
  | CallSync :: cs' => Sync;;; replay cs' last
  | HostSets vars sync :: cs' => hostSets vars sync;;; replay cs' last
  end.

(** The identity [Init] records for an argument. *)
Definition orDefault (arg dflt : string) : string :=
  if TrimSpace arg =? "" then dflt else arg.

(** The level string in the words of the documentation: the trimmed
    argument if it is not empty, otherwise the trimmed LOG_LEVEL if it is
    not empty, otherwise "info". *)
Definition levelSource (level : string) (vars : list (string * string))
    : string :=
  if negb (TrimSpace level =? "") then TrimSpace level
  else if negb (TrimSpace (lookupenv "LOG_LEVEL" vars) =? "")
       then TrimSpace (lookupenv "LOG_LEVEL" vars)
       else "info".

(** What [Log] carries, relative to the latest initialization [last]. *)
Definition carries (last : option (string * string)) (p : Process) : Prop :=
  forall l,
    Log p = Some l ->
    exists service env,
      last = Some (service, env) /\
      fields l = [("service", orDefault service defaultService);
                  ("env", orDefault env defaultEnv)] /\
      serviceName p = orDefault service defaultService /\
      envName p = orDefault env defaultEnv.

End Facade.

(** The library as it acts on ASCII text. *)
#[export] Instance asciiLibrary : Library :=
  {| TrimSpace := strings_TrimSpace;
     ToLower := strings_ToLower;
     UnmarshalText := Level_UnmarshalText |}.

(** A library whose parser knows no severity at all. *)
Definition deafLibrary : Library :=
  {| TrimSpace := strings_TrimSpace;
     ToLower := strings_ToLower;
     UnmarshalText := fun text => Err (fmtError "unrecognized level: %q" [text]) |}.

(** Concrete processes and calls the statements below are evaluated on. *)
Definition freshProcess : Process := initialProcess [] None.

Definition stateAfter {A} (o : outcome A) : Process :=
  match o with
  | Returned _ p => p
  | Panicked _ => freshProcess
  end.

Definition servingProcess : Process :=
  stateAfter (Init "info" "orders-api" "prod" freshProcess).

Definition withSync (p : Process) (sync : option error) : Process :=
  stateAfter (hostSets (environ p) sync p).

Definition demoCalls : list call :=
  [ CallInit "info" "orders-api" "prod";
    CallInit "loud" "billing-api" "stage";
    CallNew "http";
    HostSets [("LOG_LEVEL", " Debug ")] (Some (Errno EPIPE));
    CallSync;
    CallInit "" "" " canary " ].

Definition demoFinal : Process :=
  stateAfter (replay demoCalls None freshProcess).

(** ** The plainer variant of the file

    The repository carries a second copy of [logger/logger.go]
    (src/unnamed/part_000) without level normalisation, identity defaults
    and broken-pipe handling.  Its three functions, over the same state. *)
Module Part000.
Section Variant.

Context {lib : Library}.

Definition Init (level service env : string) : M (option error) :=
  match UnmarshalText level with
  | Err err =>
      ret (Some (wrapError "invalid log level %q: %w" [level] err))
  | Ok zapLevel =>
      setIdentity service env;;;
      let encCfg := NewProductionEncoderConfig in
      let encCfg := setEncodeTime encCfg RFC3339TimeEncoder in
      let encCfg := setTimeKey encCfg "ts" in
      let encCfg := setMessageKey encCfg "msg" in
      let encCfg := setCallerKey encCfg "caller" in
      let encoder := NewJSONEncoder encCfg in
      let ws := AddSync Stdout in
      let core := NewCore encoder ws zapLevel in
      let z := zap_New core [AddCaller; AddStacktrace ErrorLevel] in
      names <- getIdentity;;
      let l := With (Sugar z)
                 [("service", fst names); ("env", snd names)] in
      setLog l;;;
      ReplaceGlobals z;;;
      ret None
  end.

Definition New (module : string) : M SugaredLogger :=
  l <- getLog;;
  match l with
  | None => Init "info" "unknown-service" "dev";;; ret tt
  | Some _ => ret tt
  end;;;
  l <- getLog;;
  match l with
  | None => panic "invalid memory address or nil pointer dereference"
  | Some l => ret (With l [("module", module)])
  end.

Definition Sync : M (option error) :=
  l <- getLog;;
  match l with
  | None => ret None
  | Some l => LoggerSync l
  end.

End Variant.
End Part000.

(** The logger and the package state a successful [Init] ends with, written
    out: what the proofs compare the code's result against. *)
Definition conventions : EncoderConfig :=
  {| MessageKey := "msg"; LevelKey := "level"; TimeKey := "ts";
     NameKey := "logger"; CallerKey := "caller";
     StacktraceKey := "stacktrace"; EncodeTime := RFC3339TimeEncoder |}.

Definition builtLogger (zapLevel : Level) : Logger :=
  {| core := {| encoding := JSONEncoder; encCfg := conventions;
                sink := Stdout; minLevel := zapLevel; context := [] |};
     addCaller := true;
     addStack := Level_int8 ErrorLevel |}.

Definition initialized (zapLevel : Level) (service env : string)
    (p : Process) : Process :=
  {| Log := Some (With (Sugar (builtLogger zapLevel))
                    [("service", service); ("env", env)]);
     serviceName := service; envName := env;
     globalL := Some (builtLogger zapLevel);
     environ := environ p; stdoutSync := stdoutSync p |}.

(** zap's global logger is in step with [Log]: both untouched, or the
    global one is [Log] without its two fields. *)
Definition globalInStep (p : Process) : Prop :=
  match Log p with
  | None => globalL p = None /\ serviceName p = "" /\ envName p = ""
  | Some l =>
      exists z,
        globalL p = Some z /\
        context (core z) = [] /\
        l = With (Sugar z) [("service", serviceName p); ("env", envName p)]
  end.

Section Properties.

Context {lib : Library}.

(** ** Properties *)

(** [errors.Is err EPIPE] holds exactly when EPIPE sits somewhere in the
    unwrapping tree of [err]. *)
Lemma errors_Is_inChain target :
  forall err, errors_Is err target = true <-> inChain err (Errno target).
Proof.
  fix IH 1.
  intros [code|msg|format operands|format operands inner|op path inner|errs];
    cbn [errors_Is].
  - split.
    + intros H. apply Z.eqb_eq in H. subst. constructor.
    + intros H. inversion H. apply Z.eqb_refl.
  - split; [discriminate|intros H; inversion H].
  - split; [discriminate|intros H; inversion H].
  - rewrite IH. split.
    + intros H. constructor. exact H.
    + intros H. inversion H. assumption.
  - rewrite IH. split.
    + intros H. constructor. exact H.
    + intros H. inversion H. assumption.
  - assert (Hany :
      (fix any (l : list error) : bool :=
         match l with
         | [] => false
         | e :: l' => errors_Is e target || any l'
         end) errs = true <->
      exists x, In x errs /\ inChain x (Errno target)).
    { induction errs as [|e errs IHl].
      - split; [discriminate|intros (x & [] & _)].
      - rewrite orb_true_iff, IHl, (IH e). split.
        + intros [H|(x & Hin & H)].
          * exists e. split; [left; reflexivity|exact H].
          * exists x. split; [right; exact Hin|exact H].
        + intros (x & [->|Hin] & H); [left; exact H|right; eauto]. }
    rewrite Hany. split.
    + intros (x & Hin & H). econstructor; eassumption.
    + intros H. inversion H. eauto.
Qed.

Lemma Init_Err level service env p err :
  UnmarshalText (ToLower (levelSource level (environ p))) = Err err ->
  Init level service env p =
    Returned
      (Some (wrapError "invalid log level %q: %w"
               [levelSource level (environ p)] err)) p.
Proof.
  intros H. unfold Init, levelSource, bind, Getenv, ret in *.
  destruct (TrimSpace level =? "") eqn:Hl; cbn [negb] in H.
  - destruct (TrimSpace (lookupenv "LOG_LEVEL" (environ p)) =? "") eqn:He;
      cbn [negb] in H; unfold defaultLevel; rewrite ?He, H; reflexivity.
  - rewrite Hl, H; reflexivity.
Qed.

Lemma Init_Ok level service env p zapLevel :
  UnmarshalText (ToLower (levelSource level (environ p))) = Ok zapLevel ->
  exists l p',
    Init level service env p = Returned None p' /\
    Log p' = Some l /\
    fields l = [("service", orDefault service defaultService);
                ("env", orDefault env defaultEnv)] /\
    minLevel (core (base l)) = zapLevel /\
    addCaller (base l) = true /\
    addStack (base l) = Level_int8 ErrorLevel /\
    encCfg (core (base l)) =
      {| MessageKey := "msg"; LevelKey := "level"; TimeKey := "ts";
         NameKey := "logger"; CallerKey := "caller";
         StacktraceKey := "stacktrace"; EncodeTime := RFC3339TimeEncoder |} /\
    serviceName p' = orDefault service defaultService /\
    envName p' = orDefault env defaultEnv /\
    environ p' = environ p /\
    stdoutSync p' = stdoutSync p.
Proof.
  intros H. unfold Init, levelSource, bind, Getenv, ret in *.
  destruct (TrimSpace level =? "") eqn:Hl; cbn [negb] in H.
  - destruct (TrimSpace (lookupenv "LOG_LEVEL" (environ p)) =? "") eqn:He;
      cbn [negb] in H; unfold defaultLevel; rewrite ?He, H; cbn;
      (do 2 eexists; split; [reflexivity|]; cbn; repeat split; reflexivity).
  - rewrite Hl, H; cbn.
    do 2 eexists; split; [reflexivity|]; cbn; repeat split; reflexivity.
Qed.

Lemma Init_returns level service env p :
  exists r p', Init level service env p = Returned r p'.
Proof.
  destruct (UnmarshalText (ToLower (levelSource level (environ p))))
    as [zapLevel|err] eqn:H.
  - destruct (Init_Ok level service env p zapLevel H) as (l & p' & E & _).
    eauto.
  - rewrite (Init_Err level service env p err H). eauto.
Qed.

Lemma orDefault_same dflt : orDefault dflt dflt = dflt.
Proof. unfold orDefault. destruct (TrimSpace dflt =? ""); reflexivity. Qed.

Lemma orDefault_nonempty arg dflt :
  TrimSpace arg <> "" -> orDefault arg dflt = arg.
Proof.
  intros H. unfold orDefault. apply String.eqb_neq in H. rewrite H.
  reflexivity.
Qed.

Lemma orDefault_empty arg dflt :
  TrimSpace arg = "" -> orDefault arg dflt = dflt.
Proof. intros H. unfold orDefault. rewrite H. reflexivity. Qed.

Lemma fields_With l kvs : fields (With l kvs) = (fields l ++ kvs)%list.
Proof. reflexivity. Qed.

Lemma New_set module p g :
  Log p = Some g -> New module p = Returned (With g [("module", module)]) p.
Proof.
  intros H. unfold New, ensureDefaultInit, bind, getLog, ret.
  rewrite H. cbn. rewrite H. reflexivity.
Qed.

Lemma New_unset_Ok module p zapLevel :
  Log p = None ->
  UnmarshalText (ToLower (levelSource defaultLevel (environ p))) =
    Ok zapLevel ->
  exists g p',
    Init defaultLevel defaultService defaultEnv p = Returned None p' /\
    Log p' = Some g /\
    New module p = Returned (With g [("module", module)]) p'.
Proof.
  intros Hnil H.
  destruct (Init_Ok defaultLevel defaultService defaultEnv p zapLevel H)
    as (g & p' & E & HL & _).
  exists g, p'. repeat split; try assumption.
  unfold New, ensureDefaultInit, bind, getLog, ret.
  rewrite Hnil, E. cbn. rewrite HL. reflexivity.
Qed.

Lemma New_unset_Err module p err :
  Log p = None ->
  UnmarshalText (ToLower (levelSource defaultLevel (environ p))) = Err err ->
  exists reason, New module p = Panicked reason.
Proof.
  intros Hnil H.
  unfold New, ensureDefaultInit, bind, getLog, ret.
  rewrite Hnil, (Init_Err _ _ _ _ _ H). cbn. rewrite Hnil.
  eexists. reflexivity.
Qed.

Lemma Sync_returns p : exists r, Sync p = Returned r p.
Proof.
  unfold Sync, bind, getLog, LoggerSync, ret.
  destruct (Log p); [|eauto].
  destruct (stdoutSync p) as [err|]; [|eauto].
  destruct (errors_Is err EPIPE); eauto.
Qed.

Lemma replay_carries cs :
  forall last p last' p',
    carries last p ->
    replay cs last p = Returned last' p' ->
    carries last' p'.
Proof.
  induction cs as [|c cs IH]; intros last p last' p' Hinv Hrun.
  - cbn in Hrun. unfold ret in Hrun. injection Hrun as <- <-. exact Hinv.
  - destruct c as [level service env|module| |vars sync];
      cbn [replay] in Hrun; unfold bind in Hrun.
    + destruct (UnmarshalText (ToLower (levelSource level (environ p))))
        as [zapLevel|err] eqn:H.
      * destruct (Init_Ok level service env p zapLevel H)
          as (l & q & E & HL & Hf & _ & _ & _ & _ & Hs & He & _).
        rewrite E in Hrun. apply (IH _ _ _ _) in Hrun; [exact Hrun|].
        intros l0 HL0. rewrite HL in HL0. injection HL0 as <-.
        exists service, env. auto.
      * rewrite (Init_Err level service env p err H) in Hrun.
        apply (IH _ _ _ _ Hinv) in Hrun. exact Hrun.
    + unfold getLog at 1 in Hrun.
      destruct (Log p) as [g|] eqn:HLp.
      * rewrite (New_set module p g HLp) in Hrun.
        apply (IH _ _ _ _ Hinv) in Hrun. exact Hrun.
      * destruct (UnmarshalText
                    (ToLower (levelSource defaultLevel (environ p))))
          as [zapLevel|err] eqn:H.
        -- destruct (Init_Ok defaultLevel defaultService defaultEnv p
                       zapLevel H)
             as (l & q & E & HL & Hf & _ & _ & _ & _ & Hs & He & _).
           destruct (New_unset_Ok module p zapLevel HLp H)
             as (g & q' & E' & HL' & EN).
           rewrite E in E'. injection E' as <-.
           rewrite EN in Hrun. apply (IH _ _ _ _) in Hrun; [exact Hrun|].
           intros l0 HL0. rewrite HL in HL0. injection HL0 as <-.
           exists defaultService, defaultEnv. auto.
        -- destruct (New_unset_Err module p err HLp H) as (reason & EN).
           rewrite EN in Hrun. discriminate.
    + destruct (Sync_returns p) as (r & E). rewrite E in Hrun.
      apply (IH _ _ _ _ Hinv) in Hrun. exact Hrun.
    + cbn in Hrun. apply (IH _ _ _ _) in Hrun; [exact Hrun|].
      exact Hinv.
Qed.

(** C1: every call of [Init] parses the minimum severity from the trimmed
    level argument if that is not empty, otherwise from the trimmed value of
    LOG_LEVEL if that is not empty, otherwise from "info"; the string is
    lower-cased before it is parsed, so two level strings with the same
    lower-cased form yield the same minimum severity. *)
Theorem Init_level_resolution level service env p :
  match UnmarshalText (ToLower (levelSource level (environ p))) with
  | Ok zapLevel =>
      exists l p',
        Init level service env p = Returned None p' /\
        Log p' = Some l /\
        minLevel (core (base l)) = zapLevel /\
        forall level2,
          ToLower (levelSource level2 (environ p)) =
            ToLower (levelSource level (environ p)) ->
          exists l2 p2,
            Init level2 service env p = Returned None p2 /\
            Log p2 = Some l2 /\
            minLevel (core (base l2)) = zapLevel
  | Err _ => exists e, Init level service env p = Returned (Some e) p
  end.
Proof.
  destruct (UnmarshalText (ToLower (levelSource level (environ p))))
    as [zapLevel|err] eqn:H.
  - destruct (Init_Ok level service env p zapLevel H)
      as (l & p' & E & HL & _ & Hmin & _).
    exists l, p'. repeat split; try assumption.
    intros level2 Hsame. rewrite <- Hsame in H.
    destruct (Init_Ok level2 service env p zapLevel H)
      as (l2 & p2 & E2 & HL2 & _ & Hmin2 & _).
    exists l2, p2. auto.
  - rewrite (Init_Err level service env p err H). eauto.
Qed.

(** C2: [Init] returns an error exactly when the resolved, lower-cased level
    string is rejected by the parser, and that error wraps the parser's; it
    has no other way to fail (it always returns), and a level that is a
    severity name the parser knows, in whatever letter case, succeeds. *)
Theorem Init_fails_iff_unparsable level service env p :
  (exists r p', Init level service env p = Returned r p') /\
  ((exists e p', Init level service env p = Returned (Some e) p') <->
   (exists err,
      UnmarshalText (ToLower (levelSource level (environ p))) = Err err)) /\
  (forall e p',
      Init level service env p = Returned (Some e) p' ->
      exists err,
        UnmarshalText (ToLower (levelSource level (environ p))) = Err err /\
        e = wrapError "invalid log level %q: %w"
              [levelSource level (environ p)] err) /\
  (forall name zapLevel,
      TrimSpace level <> "" ->
      ToLower (TrimSpace level) = ToLower name ->
      UnmarshalText (ToLower name) = Ok zapLevel ->
      exists l p',
        Init level service env p = Returned None p' /\
        Log p' = Some l /\
        minLevel (core (base l)) = zapLevel).
Proof.
  split; [apply Init_returns|].
  assert (Herr : forall e p',
            Init level service env p = Returned (Some e) p' ->
            exists err,
              UnmarshalText (ToLower (levelSource level (environ p))) =
                Err err /\
              e = wrapError "invalid log level %q: %w"
                    [levelSource level (environ p)] err).
  { intros e p' E.
    destruct (UnmarshalText (ToLower (levelSource level (environ p))))
      as [zapLevel|err] eqn:H.
    - destruct (Init_Ok level service env p zapLevel H) as (l & q & E' & _).
      rewrite E' in E. discriminate.
    - rewrite (Init_Err level service env p err H) in E.
      injection E as <- _. eauto. }
  split; [split|split].
  - intros (e & p' & E). destruct (Herr e p' E) as (err & H & _). eauto.
  - intros (err & H). rewrite (Init_Err level service env p err H). eauto.
  - exact Herr.
  - intros name zapLevel Hne Hcase Hvalid.
    assert (Hsrc : levelSource level (environ p) = TrimSpace level).
    { unfold levelSource. apply String.eqb_neq in Hne. rewrite Hne.
      reflexivity. }
    rewrite <- Hcase, <- Hsrc in Hvalid.
    destruct (Init_Ok level service env p zapLevel Hvalid)
      as (l & p' & E & HL & _ & Hmin & _).
    eauto.
Qed.

(** C3: a call of [Init] that returns an error leaves the whole package
    state as it was: [Log] (also when it was still nil), the recorded
    service and env names, and zap's global logger. *)
Theorem Init_failure_keeps_state level service env p e p' :
  Init level service env p = Returned (Some e) p' ->
  p' = p /\
  Log p' = Log p /\
  serviceName p' = serviceName p /\
  envName p' = envName p /\
  globalL p' = globalL p.
Proof.
  intros E.
  assert (Hp : p' = p).
  { destruct (UnmarshalText (ToLower (levelSource level (environ p))))
      as [zapLevel|err] eqn:H.
    - destruct (Init_Ok level service env p zapLevel H) as (l & q & E' & _).
      rewrite E' in E. discriminate.
    - rewrite (Init_Err level service env p err H) in E.
      injection E as _ <-. reflexivity. }
  subst p'. repeat split.
Qed.

(** C4: [Sync] returns nil when [Log] is nil; when [Log] is set and the
    flush fails with an error that is EPIPE (by [errors.Is]) it returns nil;
    when the flush fails with any other error it returns that very error.
    The package state is not touched in any of the cases. *)
Theorem Sync_ignores_broken_pipe p :
  (Log p = None -> Sync p = Returned None p) /\
  (forall l err,
      Log p = Some l -> stdoutSync p = Some err ->
      errors_Is err EPIPE = true ->
      Sync p = Returned None p) /\
  (forall l err,
      Log p = Some l -> stdoutSync p = Some err ->
      errors_Is err EPIPE = false ->
      Sync p = Returned (Some err) p).
Proof.
  unfold Sync, bind, getLog, LoggerSync, ret.
  repeat split.
  - intros ->. reflexivity.
  - intros l err -> -> ->. reflexivity.
  - intros l err -> -> ->. reflexivity.
Qed.

(** C5: after any sequence of calls, once [Log] is set it carries exactly
    the two fields service and env, with the values of the latest
    initialization that took effect (defaults substituted for blank
    arguments); nothing of an earlier initialization is kept, and a logger
    obtained from [New] carries those two fields and then the one module
    field. *)
Theorem Log_carries_last_identity cs vars sync last p l :
  replay cs None (initialProcess vars sync) = Returned last p ->
  Log p = Some l ->
  exists service env,
    last = Some (service, env) /\
    fields l = [("service", orDefault service defaultService);
                ("env", orDefault env defaultEnv)] /\
    forall module,
      exists m,
        New module p = Returned m p /\
        fields m = [("service", orDefault service defaultService);
                    ("env", orDefault env defaultEnv);
                    ("module", module)].
Proof.
  intros Hrun HL.
  assert (Hinit : carries None (initialProcess vars sync)).
  { intros l0 H0. discriminate. }
  destruct (replay_carries cs _ _ _ _ Hinit Hrun l HL)
    as (service & env & Hlast & Hf & _).
  exists service, env. repeat split; try assumption.
  intros module. exists (With l [("module", module)]).
  split; [apply New_set; assumption|].
  rewrite fields_With, Hf. reflexivity.
Qed.

(** Facts about the library functions on the package's own constants. *)
Hypothesis TrimSpace_empty : TrimSpace "" = "".
Hypothesis TrimSpace_info : TrimSpace "info" = "info".
Hypothesis ToLower_info : ToLower "info" = "info".
Hypothesis UnmarshalText_info : UnmarshalText "info" = Ok InfoLevel.

Lemma levelSource_default vars : levelSource defaultLevel vars = "info".
Proof.
  unfold levelSource, defaultLevel. rewrite TrimSpace_info. reflexivity.
Qed.

Lemma default_level_parses vars :
  UnmarshalText (ToLower (levelSource defaultLevel vars)) = Ok InfoLevel.
Proof.
  rewrite levelSource_default, ToLower_info. exact UnmarshalText_info.
Qed.

Lemma New_returns module p :
  exists g p',
    New module p = Returned (With g [("module", module)]) p' /\
    Log p' = Some g /\
    match Log p with
    | Some _ => p' = p
    | None =>
        Init defaultLevel defaultService defaultEnv p = Returned None p' /\
        minLevel (core (base g)) = InfoLevel /\
        fields g = [("service", defaultService); ("env", defaultEnv)]
    end.
Proof.
  destruct (Log p) as [g|] eqn:HLp.
  - exists g, p. rewrite (New_set module p g HLp). auto.
  - pose proof (default_level_parses (environ p)) as H.
    destruct (Init_Ok defaultLevel defaultService defaultEnv p InfoLevel H)
      as (l & q & E & HL & Hf & Hmin & _).
    destruct (New_unset_Ok module p InfoLevel HLp H)
      as (g & q' & E' & HL' & EN).
    rewrite E in E'. injection E' as <-.
    rewrite HL in HL'. injection HL' as <-.
    exists l, q. rewrite !orDefault_same in Hf. auto.
Qed.

(** C6: for every string [module], the empty one included, [New] returns
    [Log] extended with exactly one more field, module, whose value is the
    argument as it was passed: nothing is trimmed, checked or replaced. *)
Theorem New_adds_module_field module p :
  exists m p' g,
    New module p = Returned m p' /\
    Log p' = Some g /\
    m = With g [("module", module)] /\
    fields m = (fields g ++ [("module", module)])%list /\
    minLevel (core (base m)) = minLevel (core (base g)) /\
    addCaller (base m) = addCaller (base g) /\
    addStack (base m) = addStack (base g).
Proof.
  destruct (New_returns module p) as (g & p' & E & HL & _).
  exists (With g [("module", module)]), p', g.
  repeat split; assumption.
Qed.

(** C7: [New] cannot fail.  It never panics; when [Log] is nil it first
    runs [Init] with the defaults "info", "unknown-service" and "dev",
    which returns nil because those defaults parse; afterwards [Log] is set
    and the returned logger is derived from it. *)
Theorem New_never_fails module p :
  exists m p' g,
    New module p = Returned m p' /\
    Log p' = Some g /\
    m = With g [("module", module)] /\
    match Log p with
    | Some _ => p' = p
    | None =>
        Init "info" "unknown-service" "dev" p = Returned None p' /\
        minLevel (core (base g)) = InfoLevel /\
        fields g = [("service", "unknown-service"); ("env", "dev")]
    end.
Proof.
  destruct (New_returns module p) as (g & p' & E & HL & H).
  exists (With g [("module", module)]), p', g. auto.
Qed.

(** C8: whenever the trimmed service argument is empty [Init] attaches
    "unknown-service" as the service field, and independently whenever the
    trimmed env argument is empty it attaches "dev" as the env field; in
    particular Init("", "", "") with LOG_LEVEL unset yields both defaults
    and the minimum severity info. *)
Theorem Init_identity_defaults :
  (forall level service env p p',
      Init level service env p = Returned None p' ->
      exists l sv ev,
        Log p' = Some l /\
        fields l = [("service", sv); ("env", ev)] /\
        serviceName p' = sv /\ envName p' = ev /\
        (TrimSpace service = "" -> sv = "unknown-service") /\
        (TrimSpace env = "" -> ev = "dev")) /\
  (forall p,
      lookupenv "LOG_LEVEL" (environ p) = "" ->
      exists l p',
        Init "" "" "" p = Returned None p' /\
        Log p' = Some l /\
        fields l = [("service", "unknown-service"); ("env", "dev")] /\
        minLevel (core (base l)) = InfoLevel).
Proof.
  split.
  - intros level service env p p' E.
    destruct (UnmarshalText (ToLower (levelSource level (environ p))))
      as [zapLevel|err] eqn:H.
    + destruct (Init_Ok level service env p zapLevel H)
        as (l & q & E' & HL & Hf & _ & _ & _ & _ & Hs & He & _).
      rewrite E' in E. injection E as <-.
      exists l, (orDefault service defaultService),
        (orDefault env defaultEnv).
      repeat split; try assumption; apply orDefault_empty.
    + rewrite (Init_Err level service env p err H) in E. discriminate.
  - intros p Hunset.
    assert (H : UnmarshalText (ToLower (levelSource "" (environ p))) =
                Ok InfoLevel).
    { unfold levelSource. rewrite Hunset, TrimSpace_empty. cbn.
      rewrite ToLower_info. exact UnmarshalText_info. }
    destruct (Init_Ok "" "" "" p InfoLevel H)
      as (l & q & E & HL & Hf & Hmin & _).
    exists l, q. repeat split; try assumption.
    rewrite Hf, !orDefault_empty by exact TrimSpace_empty. reflexivity.
Qed.

(** C9: every logger built by [Init] annotates all its records with the
    caller and puts a stack trace on exactly the records at error severity
    or above: a record at error has one, a record at info has none.  The
    same holds for the loggers derived from it. *)
Theorem Init_caller_and_stacktrace level service env p p' :
  Init level service env p = Returned None p' ->
  exists l,
    Log p' = Some l /\
    addCaller (base l) = true /\
    StacktraceKey (encCfg (core (base l))) = "stacktrace" /\
    CallerKey (encCfg (core (base l))) = "caller" /\
    (forall kvs lvl e,
        check (With l kvs) lvl = Some e ->
        hasCaller e = true /\
        (hasStack e = true <-> (Level_int8 ErrorLevel <= Level_int8 lvl)%Z)) /\
    (forall e, check l ErrorLevel = Some e -> hasStack e = true) /\
    (forall e, check l InfoLevel = Some e -> hasStack e = false).
Proof.
  intros E.
  destruct (UnmarshalText (ToLower (levelSource level (environ p))))
    as [zapLevel|err] eqn:H.
  - destruct (Init_Ok level service env p zapLevel H)
      as (l & q & E' & HL & _ & _ & Hc & Hst & Hcfg & _).
    rewrite E' in E. injection E as <-.
    exists l. split; [assumption|]. split; [assumption|].
    rewrite Hcfg. split; [reflexivity|]. split; [reflexivity|].
    assert (Hall : forall s lvl e,
              addCaller (base s) = true ->
              addStack (base s) = Level_int8 ErrorLevel ->
              check s lvl = Some e ->
              hasCaller e = true /\
              (hasStack e = true <->
               (Level_int8 ErrorLevel <= Level_int8 lvl)%Z)).
    { intros s lvl e Hcs Hss Hchk. unfold check in Hchk.
      destruct (Enabled (Level_int8 (minLevel (core (base s)))) lvl);
        [|discriminate].
      injection Hchk as <-. cbn. rewrite Hcs, Hss. split; [reflexivity|].
      unfold Enabled. apply Z.leb_le. }
    split; [|split].
    + intros kvs lvl e. apply Hall; assumption.
    + intros e Hchk. apply (Hall l ErrorLevel e Hc Hst Hchk). cbn. lia.
    + intros e Hchk. destruct (hasStack e) eqn:Hs; [|reflexivity].
      apply (Hall l InfoLevel e Hc Hst Hchk) in Hs. cbn in Hs. lia.
  - rewrite (Init_Err level service env p err H) in E. discriminate.
Qed.

(** C10: a service or env argument that is not empty after trimming is
    recorded and attached exactly as it was passed, surrounding white space
    included; trimming only decides whether the default is substituted. *)
Theorem Init_keeps_untrimmed_identity level service env p p' :
  Init level service env p = Returned None p' ->
  exists l sv ev,
    Log p' = Some l /\
    fields l = [("service", sv); ("env", ev)] /\
    serviceName p' = sv /\ envName p' = ev /\
    (TrimSpace service <> "" -> sv = service) /\
    (TrimSpace env <> "" -> ev = env).
Proof.
  intros E.
  destruct (UnmarshalText (ToLower (levelSource level (environ p))))
    as [zapLevel|err] eqn:H.
  - destruct (Init_Ok level service env p zapLevel H)
      as (l & q & E' & HL & Hf & _ & _ & _ & _ & Hs & He & _).
    rewrite E' in E. injection E as <-.
    exists l, (orDefault service defaultService), (orDefault env defaultEnv).
    repeat split; try assumption; apply orDefault_nonempty.
  - rewrite (Init_Err level service env p err H) in E. discriminate.
Qed.

End Properties.

(** ** The statements on concrete calls, with the ASCII library *)

Lemma Init_level_resolution_witness :
  exists l p',
    Init "  DeBuG " "svc" "prod"
      (initialProcess [("LOG_LEVEL", "warn")] None) = Returned None p' /\
    Log p' = Some l /\
    minLevel (core (base l)) = DebugLevel.
Proof.
  pose proof (@Init_level_resolution asciiLibrary "  DeBuG " "svc" "prod"
                (initialProcess [("LOG_LEVEL", "warn")] None)) as H.
  change (UnmarshalText _) with (@Ok Level DebugLevel) in H.
  destruct H as (l & p' & E & HL & Hmin & _).
  exists l, p'. auto.
Defined.

Example Init_env_fallback :
  exists l p',
    Init "  " "svc" "prod"
      (initialProcess [("LOG_LEVEL", " Debug ")] None) = Returned None p' /\
    Log p' = Some l /\
    minLevel (core (base l)) = DebugLevel.
Proof.
  do 2 eexists. split; [vm_compute; reflexivity|].
  split; vm_compute; reflexivity.
Qed.

Example Init_argument_before_env :
  exists l p',
    Init "ERROR" "svc" "prod"
      (initialProcess [("LOG_LEVEL", "debug")] None) = Returned None p' /\
    Log p' = Some l /\
    minLevel (core (base l)) = ErrorLevel.
Proof.
  do 2 eexists. split; [vm_compute; reflexivity|].
  split; vm_compute; reflexivity.
Qed.

Example Init_default_level :
  exists l p',
    Init "" "svc" "prod" (initialProcess [("LOG_LEVEL", "   ")] None) =
      Returned None p' /\
    Log p' = Some l /\
    minLevel (core (base l)) = InfoLevel.
Proof.
  do 2 eexists. split; [vm_compute; reflexivity|].
  split; vm_compute; reflexivity.
Qed.

Lemma Init_fails_iff_unparsable_witness :
  (exists e p', Init "loud" "svc" "prod" freshProcess = Returned (Some e) p') /\
  (exists l p',
     Init " WaRn" "svc" "prod" freshProcess = Returned None p' /\
     Log p' = Some l /\
     minLevel (core (base l)) = WarnLevel).
Proof.
  split.
  - apply (proj1 (proj2 (@Init_fails_iff_unparsable asciiLibrary
                           "loud" "svc" "prod" freshProcess))).
    eexists. vm_compute. reflexivity.
  - apply (proj2 (proj2 (proj2 (@Init_fails_iff_unparsable asciiLibrary
                                  " WaRn" "svc" "prod" freshProcess)))
             "warn" WarnLevel).
    + discriminate.
    + reflexivity.
    + reflexivity.
Defined.

Lemma Init_failure_keeps_state_witness :
  exists e,
    Init "loud" "billing-api" "stage" servingProcess =
      Returned (Some e) servingProcess /\
    serviceName servingProcess = "orders-api" /\
    (exists l, Log servingProcess = Some l) /\
    Init "loud" "billing-api" "stage" freshProcess =
      Returned (Some e) freshProcess /\
    Log freshProcess = None.
Proof.
  exists (wrapError "invalid log level %q: %w" ["loud"]
            (fmtError "unrecognized level: %q" ["loud"])).
  assert (E : exists p',
             Init "loud" "billing-api" "stage" servingProcess =
               Returned
                 (Some (wrapError "invalid log level %q: %w" ["loud"]
                          (fmtError "unrecognized level: %q" ["loud"]))) p').
  { eexists. vm_compute. reflexivity. }
  destruct E as (p' & E).
  destruct (@Init_failure_keeps_state asciiLibrary _ _ _ _ _ _ E)
    as (Hp & _).
  rewrite Hp in E.
  split; [exact E|].
  split; [reflexivity|].
  split; [eexists; reflexivity|].
  split; reflexivity.
Defined.

Lemma Sync_ignores_broken_pipe_witness :
  Sync freshProcess = Returned None freshProcess /\
  Sync (withSync servingProcess
          (Some (PathError "write" "/dev/stdout" (Errno EPIPE)))) =
    Returned None
      (withSync servingProcess
         (Some (PathError "write" "/dev/stdout" (Errno EPIPE)))) /\
  Sync (withSync servingProcess
          (Some (PathError "sync" "/dev/stdout" (Errno EINVAL)))) =
    Returned (Some (PathError "sync" "/dev/stdout" (Errno EINVAL)))
      (withSync servingProcess
         (Some (PathError "sync" "/dev/stdout" (Errno EINVAL)))).
Proof.
  split; [|split].
  - apply (proj1 (Sync_ignores_broken_pipe freshProcess)). reflexivity.
  - eapply (proj1 (proj2 (Sync_ignores_broken_pipe _))); reflexivity.
  - eapply (proj2 (proj2 (Sync_ignores_broken_pipe _))); reflexivity.
Defined.

Lemma Log_carries_last_identity_witness :
  exists l,
    replay demoCalls None freshProcess =
      Returned (Some ("", " canary ")) demoFinal /\
    Log demoFinal = Some l /\
    fields l = [("service", "unknown-service"); ("env", " canary ")] /\
    exists m,
      New "http" demoFinal = Returned m demoFinal /\
      fields m = [("service", "unknown-service"); ("env", " canary ");
                  ("module", "http")].
Proof.
  assert (E : replay demoCalls None freshProcess =
              Returned (Some ("", " canary ")) demoFinal)
    by (vm_compute; reflexivity).
  destruct (Log demoFinal) as [l|] eqn:HL; [|vm_compute in HL; discriminate].
  destruct (@Log_carries_last_identity asciiLibrary _ _ _ _ _ _ E HL)
    as (service & env & Hlast & Hf & HN).
  injection Hlast as <- <-.
  exists l. split; [reflexivity|]. split; [reflexivity|].
  split; [exact Hf|]. exact (HN "http").
Defined.

Lemma New_adds_module_field_witness :
  (exists m p' g,
     New "" freshProcess = Returned m p' /\
     Log p' = Some g /\
     fields m = (fields g ++ [("module", "")])%list) /\
  (exists m p' g,
     New "  http " servingProcess = Returned m p' /\
     Log p' = Some g /\
     fields m = (fields g ++ [("module", "  http ")])%list).
Proof.
  split.
  - destruct (@New_adds_module_field asciiLibrary eq_refl eq_refl eq_refl
                "" freshProcess) as (m & p' & g & E & HL & _ & Hf & _).
    exists m, p', g. auto.
  - destruct (@New_adds_module_field asciiLibrary eq_refl eq_refl eq_refl
                "  http " servingProcess)
      as (m & p' & g & E & HL & _ & Hf & _).
    exists m, p', g. auto.
Defined.

Lemma New_never_fails_witness :
  exists m p' g,
    New "http" freshProcess = Returned m p' /\
    Log freshProcess = None /\
    Log p' = Some g /\
    Init "info" "unknown-service" "dev" freshProcess = Returned None p' /\
    fields m = [("service", "unknown-service"); ("env", "dev");
                ("module", "http")].
Proof.
  destruct (@New_never_fails asciiLibrary eq_refl eq_refl eq_refl
              "http" freshProcess) as (m & p' & g & E & HL & Hm & H).
  cbn in H. destruct H as (EI & _ & Hf).
  exists m, p', g. repeat split; try assumption.
  rewrite Hm, fields_With, Hf. reflexivity.
Defined.

Lemma Init_identity_defaults_witness :
  (exists l p',
     Init "" "" "" freshProcess = Returned None p' /\
     Log p' = Some l /\
     fields l = [("service", "unknown-service"); ("env", "dev")] /\
     minLevel (core (base l)) = InfoLevel) /\
  (exists l p' ev,
     Init "warn" "   " "prod" freshProcess = Returned None p' /\
     Log p' = Some l /\
     fields l = [("service", "unknown-service"); ("env", ev)]).
Proof.
  destruct (@Init_identity_defaults asciiLibrary eq_refl eq_refl eq_refl)
    as (Hall & Hblank).
  split.
  - apply Hblank. reflexivity.
  - assert (E : exists p',
               Init "warn" "   " "prod" freshProcess = Returned None p').
    { eexists. vm_compute. reflexivity. }
    destruct E as (p' & E).
    destruct (Hall _ _ _ _ _ E) as (l & sv & ev & HL & Hf & _ & _ & Hs & _).
    rewrite (Hs eq_refl) in Hf.
    exists l, p', ev. auto.
Defined.

Lemma Init_caller_and_stacktrace_witness :
  exists l p' e1 e2,
    Init "info" "svc" "prod" freshProcess = Returned None p' /\
    Log p' = Some l /\
    check l ErrorLevel = Some e1 /\ hasCaller e1 = true /\
    hasStack e1 = true /\
    check l InfoLevel = Some e2 /\ hasCaller e2 = true /\
    hasStack e2 = false.
Proof.
  assert (E : exists p',
             Init "info" "svc" "prod" freshProcess = Returned None p').
  { eexists. vm_compute. reflexivity. }
  destruct E as (p' & E).
  destruct (@Init_caller_and_stacktrace asciiLibrary _ _ _ _ _ E)
    as (l & HL & _ & _ & _ & Hall & Herr & Hinfo).
  assert (C : exists e1 e2,
             check l ErrorLevel = Some e1 /\ check l InfoLevel = Some e2).
  { vm_compute in E. injection E as <-.
    vm_compute in HL. injection HL as <-.
    do 2 eexists. split; vm_compute; reflexivity. }
  destruct C as (e1 & e2 & C1 & C2).
  exists l, p', e1, e2.
  split; [exact E|]. split; [exact HL|].
  assert (W : forall lvl e, check l lvl = Some e ->
                            check (With l []) lvl = Some e).
  { intros lvl e <-. unfold check, With. cbn. rewrite app_nil_r.
    reflexivity. }
  split; [exact C1|].
  split; [exact (proj1 (Hall [] ErrorLevel e1 (W _ _ C1)))|].
  split; [exact (Herr e1 C1)|].
  split; [exact C2|].
  split; [exact (proj1 (Hall [] InfoLevel e2 (W _ _ C2)))|].
  exact (Hinfo e2 C2).
Defined.

Lemma Init_keeps_untrimmed_identity_witness :
  exists l p',
    Init "info" " orders api " "prod " freshProcess = Returned None p' /\
    Log p' = Some l /\
    fields l = [("service", " orders api "); ("env", "prod ")] /\
    serviceName p' = " orders api " /\
    envName p' = "prod ".
Proof.
  assert (E : exists p',
             Init "info" " orders api " "prod " freshProcess =
               Returned None p').
  { eexists. vm_compute. reflexivity. }
  destruct E as (p' & E).
  destruct (@Init_keeps_untrimmed_identity asciiLibrary _ _ _ _ _ E)
    as (l & sv & ev & HL & Hf & Hs & He & Hsv & Hev).
  assert (Hsv' : sv = " orders api ") by (apply Hsv; discriminate).
  assert (Hev' : ev = "prod ") by (apply Hev; discriminate).
  rewrite Hsv' in Hf, Hs. rewrite Hev' in Hf, He.
  exists l, p'.
  split; [exact E|]. split; [exact HL|]. split; [exact Hf|].
  split; [exact Hs|exact He].
Defined.

(** With zap's table and ASCII text, every severity name is accepted in any
    letter case and with surrounding white space. *)
Lemma Init_accepts_any_case level service env p name :
  In name ["debug"; "info"; "warn"; "error"; "dpanic"; "panic"; "fatal"] ->
  strings_ToLower (strings_TrimSpace level) = name ->
  exists l p',
    Init level service env p = Returned None p' /\
    Log p' = Some l /\
    unmarshalText name = Some (minLevel (core (base l))).
Proof.
  intros Hname Hcase.
  assert (Hne : (strings_TrimSpace level =? "") = false).
  { apply String.eqb_neq. intros Hempty. rewrite Hempty in Hcase.
    cbn in Hcase. subst name. cbn in Hname.
    repeat (destruct Hname as [Hname|Hname]; [discriminate|]).
    exact Hname. }
  assert (Hsrc : levelSource level (environ p) = strings_TrimSpace level).
  { unfold levelSource. cbn [TrimSpace asciiLibrary]. rewrite Hne.
    reflexivity. }
  assert (Hparse : exists zapLevel,
             UnmarshalText (ToLower (levelSource level (environ p))) =
               Ok zapLevel /\
             unmarshalText name = Some zapLevel).
  { rewrite Hsrc. cbn [UnmarshalText ToLower asciiLibrary]. rewrite Hcase.
    cbn in Hname.
    repeat (destruct Hname as [<-|Hname];
            [eexists; split; vm_compute; reflexivity|]).
    destruct Hname. }
  destruct Hparse as (zapLevel & Hparse & Hname').
  destruct (Init_Ok level service env p zapLevel Hparse)
    as (l & p' & E & HL & _ & Hmin & _).
  exists l, p'. rewrite Hmin. auto.
Qed.

Example errors_Is_wrapped_EPIPE :
  errors_Is
    (joinError [fmtError "flush %s" ["stderr"];
                wrapError "sync: %w" []
                  (PathError "write" "/dev/stdout" (Errno EPIPE))])
    EPIPE = true.
Proof. reflexivity. Qed.

Example errors_Is_other_errno :
  errors_Is (PathError "sync" "/dev/stdout" (Errno EINVAL)) EPIPE = false.
Proof. reflexivity. Qed.

(** The panic in [New] is a real branch of the model: with a parser that
    rejects "info" the lazy initialization fails, [Log] stays nil and
    [Log.With] dereferences it. *)
Example New_panics_when_default_is_rejected :
  @New deafLibrary "http" freshProcess =
    Panicked "invalid memory address or nil pointer dereference".
Proof. reflexivity. Qed.

(** ** Further properties of the facade *)

Section Further.

Context {lib : Library}.

Lemma Init_Ok_exact level service env p zapLevel :
  UnmarshalText (ToLower (levelSource level (environ p))) = Ok zapLevel ->
  Init level service env p =
    Returned None
      (initialized zapLevel (orDefault service defaultService)
         (orDefault env defaultEnv) p).
Proof.
  intros H. unfold Init, levelSource, bind, Getenv, ret in *.
  destruct (TrimSpace level =? "") eqn:Hl; cbn [negb] in H.
  - destruct (TrimSpace (lookupenv "LOG_LEVEL" (environ p)) =? "") eqn:He;
      cbn [negb] in H; unfold defaultLevel; rewrite ?He, H; reflexivity.
  - rewrite Hl, H; reflexivity.
Qed.

Lemma Init_cases level service env p :
  (exists zapLevel,
      UnmarshalText (ToLower (levelSource level (environ p))) = Ok zapLevel /\
      Init level service env p =
        Returned None
          (initialized zapLevel (orDefault service defaultService)
             (orDefault env defaultEnv) p)) \/
  (exists err,
      UnmarshalText (ToLower (levelSource level (environ p))) = Err err /\
      Init level service env p =
        Returned
          (Some (wrapError "invalid log level %q: %w"
                   [levelSource level (environ p)] err)) p).
Proof.
  destruct (UnmarshalText (ToLower (levelSource level (environ p))))
    as [zapLevel|err] eqn:H.
  - left. exists zapLevel. split; [reflexivity|].
    apply Init_Ok_exact. exact H.
  - right. exists err. split; [reflexivity|].
    apply Init_Err. exact H.
Qed.

Lemma Init_None_inv level service env p p' :
  Init level service env p = Returned None p' ->
  exists zapLevel,
    UnmarshalText (ToLower (levelSource level (environ p))) = Ok zapLevel /\
    p' = initialized zapLevel (orDefault service defaultService)
           (orDefault env defaultEnv) p.
Proof.
  intros E.
  destruct (Init_cases level service env p)
    as [(zapLevel & H & E')|(err & H & E')]; rewrite E' in E.
  - injection E as <-. eauto.
  - discriminate.
Qed.

(** X1: a successful [Init] installs as zap's global logger the logger it
    built, without any field, and [Log] is that same logger with the
    recorded service and env names added; the environment and the state of
    standard output are left alone. *)
Theorem Init_installs_zap_global level service env p p' :
  Init level service env p = Returned None p' ->
  exists z,
    globalL p' = Some z /\
    context (core z) = [] /\
    Log p' = Some (With (Sugar z)
                     [("service", serviceName p'); ("env", envName p')]) /\
    environ p' = environ p /\
    stdoutSync p' = stdoutSync p.
Proof.
  intros E. destruct (Init_None_inv _ _ _ _ _ E) as (zapLevel & _ & ->).
  exists (builtLogger zapLevel). repeat split.
Qed.

(** X2: the output conventions do not depend on the arguments or on the
    state: every logger a successful [Init] stores, and every logger derived
    from it with more fields, encodes JSON to standard output with the keys
    ts, level, msg, caller, logger and stacktrace and RFC3339 times. *)
Theorem Init_fixed_conventions level service env p p' l kvs :
  Init level service env p = Returned None p' ->
  Log p' = Some l ->
  encoding (core (base (With l kvs))) = JSONEncoder /\
  sink (core (base (With l kvs))) = Stdout /\
  encCfg (core (base (With l kvs))) =
    {| MessageKey := "msg"; LevelKey := "level"; TimeKey := "ts";
       NameKey := "logger"; CallerKey := "caller";
       StacktraceKey := "stacktrace"; EncodeTime := RFC3339TimeEncoder |}.
Proof.
  intros E HL. destruct (Init_None_inv _ _ _ _ _ E) as (zapLevel & _ & ->).
  cbn in HL. injection HL as <-. repeat split.
Qed.

(** X3: calling [Init] twice in a row with the same arguments is the same
    as calling it once, in the value returned and in the state left. *)
Theorem Init_twice level service env p :
  (Init level service env;;; Init level service env) p =
    Init level service env p.
Proof.
  unfold bind.
  destruct (Init_cases level service env p)
    as [(zapLevel & H & E)|(err & H & E)]; rewrite E.
  - rewrite (Init_Ok_exact level service env
               (initialized zapLevel (orDefault service defaultService)
                  (orDefault env defaultEnv) p) zapLevel H).
    reflexivity.
  - exact E.
Qed.

(** X4: what a call of [Init] returns and the state it leaves on success do
    not depend on the package state before the call, only on the
    environment and on standard output: nothing of an earlier logger
    survives. *)
Theorem Init_forgets_prior_state level service env p q r p' :
  environ q = environ p ->
  stdoutSync q = stdoutSync p ->
  Init level service env p = Returned r p' ->
  Init level service env q =
    Returned r (match r with None => p' | Some _ => q end).
Proof.
  intros Henv Hsync E.
  destruct (Init_cases level service env p)
    as [(zapLevel & H & E')|(err & H & E')];
    rewrite E' in E; injection E as <- <-; rewrite <- Henv in H.
  - rewrite (Init_Ok_exact _ _ _ _ _ H). unfold initialized.
    rewrite Henv, Hsync. reflexivity.
  - rewrite (Init_Err _ _ _ _ _ H), Henv. reflexivity.
Qed.

(** X5: loggers obtained from [New] do not build on one another: a call of
    [New] after another call of [New] returns the same logger and leaves the
    same state as it would alone, so module fields never pile up. *)
Theorem New_twice module1 module2 p :
  (New module1;;; New module2) p = New module2 p.
Proof.
  unfold bind at 1.
  destruct (Log p) as [g|] eqn:HLp.
  - rewrite (New_set module1 p g HLp). reflexivity.
  - destruct (Init_cases defaultLevel defaultService defaultEnv p)
      as [(zapLevel & H & E)|(err & H & E)].
    + assert (EN : forall module,
                New module p =
                  Returned
                    (With (With (Sugar (builtLogger zapLevel))
                             [("service", orDefault defaultService
                                            defaultService);
                              ("env", orDefault defaultEnv defaultEnv)])
                       [("module", module)])
                    (initialized zapLevel
                       (orDefault defaultService defaultService)
                       (orDefault defaultEnv defaultEnv) p)).
      { intros module. unfold New, ensureDefaultInit, bind, getLog, ret.
        rewrite HLp, E. reflexivity. }
      rewrite (EN module1), (EN module2).
      apply New_set. reflexivity.
    + assert (EN : forall module,
                New module p =
                  Panicked
                    "invalid memory address or nil pointer dereference").
      { intros module. unfold New, ensureDefaultInit, bind, getLog, ret.
        rewrite HLp, E. cbn. rewrite HLp. reflexivity. }
      rewrite (EN module1), (EN module2). reflexivity.
Qed.

(** X6: [Sync] never reports a broken pipe and never touches the package
    state: an error it returns is the very error the flush gave, [Log] was
    set, and EPIPE occurs nowhere in that error's unwrapping tree. *)
Theorem Sync_never_returns_broken_pipe p err p' :
  Sync p = Returned (Some err) p' ->
  p' = p /\
  stdoutSync p = Some err /\
  (exists l, Log p = Some l) /\
  ~ inChain err (Errno EPIPE).
Proof.
  unfold Sync, bind, getLog, LoggerSync, ret.
  destruct (Log p) as [l|]; [|discriminate].
  destruct (stdoutSync p) as [e|]; [|discriminate].
  destruct (errors_Is e EPIPE) eqn:Hpipe; [discriminate|].
  intros E. injection E as <- <-.
  repeat split; eauto.
  intros Hchain. apply errors_Is_inChain in Hchain. congruence.
Qed.

(** X7: the logger of a successful [Init], and every logger derived from
    it, drops exactly the records below the parsed minimum severity; a
    record it lets through keeps its level and carries the service and env
    fields followed by the derived logger's own. *)
Theorem Init_level_filter level service env p zapLevel p' l kvs lvl :
  UnmarshalText (ToLower (levelSource level (environ p))) = Ok zapLevel ->
  Init level service env p = Returned None p' ->
  Log p' = Some l ->
  match check (With l kvs) lvl with
  | Some e =>
      (Level_int8 zapLevel <= Level_int8 lvl)%Z /\
      entryLevel e = lvl /\
      entryFields e =
        ([("service", serviceName p'); ("env", envName p')] ++ kvs)%list
  | None => (Level_int8 lvl < Level_int8 zapLevel)%Z
  end.
Proof.
  intros H E HL. rewrite (Init_Ok_exact _ _ _ _ _ H) in E.
  injection E as <-. cbn in HL. injection HL as <-.
  unfold check, Enabled. cbn.
  destruct (Level_int8 zapLevel <=? Level_int8 lvl)%Z eqn:Hle.
  - apply Z.leb_le in Hle. repeat split. exact Hle.
  - apply Z.leb_gt in Hle. exact Hle.
Qed.

Lemma New_unset_exact module p zapLevel :
  Log p = None ->
  UnmarshalText (ToLower (levelSource defaultLevel (environ p))) =
    Ok zapLevel ->
  New module p =
    Returned
      (With (With (Sugar (builtLogger zapLevel))
               [("service", defaultService); ("env", defaultEnv)])
         [("module", module)])
      (initialized zapLevel defaultService defaultEnv p).
Proof.
  intros HLp H. unfold New, ensureDefaultInit, bind, getLog, ret.
  rewrite HLp, (Init_Ok_exact _ _ _ _ _ H), !orDefault_same. reflexivity.
Qed.

Lemma New_unset_panics module p err :
  Log p = None ->
  UnmarshalText (ToLower (levelSource defaultLevel (environ p))) = Err err ->
  New module p =
    Panicked "invalid memory address or nil pointer dereference".
Proof.
  intros HLp H. unfold New, ensureDefaultInit, bind, getLog, ret.
  rewrite HLp, (Init_Err _ _ _ _ _ H). cbn. rewrite HLp. reflexivity.
Qed.

(** X8: no call of the package ever unsets [Log]: once it is set it stays
    set through any sequence of calls, failed initializations and flushes
    included. *)
Theorem Log_stays_set cs :
  forall last p last' p' l,
    Log p = Some l ->
    replay cs last p = Returned last' p' ->
    exists l', Log p' = Some l'.
Proof.
  induction cs as [|c cs IH]; intros last p last' p' l HL Hrun.
  - cbn in Hrun. unfold ret in Hrun. injection Hrun as _ <-. eauto.
  - destruct c as [level service env|module| |vars sync];
      cbn [replay] in Hrun; unfold bind in Hrun.
    + destruct (Init_cases level service env p)
        as [(zapLevel & _ & E)|(err & _ & E)]; rewrite E in Hrun.
      * eapply IH; [|exact Hrun]. reflexivity.
      * eapply IH; [exact HL|exact Hrun].
    + unfold getLog at 1 in Hrun. rewrite HL in Hrun.
      rewrite (New_set module p l HL) in Hrun.
      eapply IH; [exact HL|exact Hrun].
    + destruct (Sync_returns p) as (r & E). rewrite E in Hrun.
      eapply IH; [exact HL|exact Hrun].
    + cbn in Hrun. eapply IH; [|exact Hrun]. exact HL.
Qed.

Lemma replay_globalInStep cs :
  forall last p last' p',
    globalInStep p ->
    replay cs last p = Returned last' p' ->
    globalInStep p'.
Proof.
  induction cs as [|c cs IH]; intros last p last' p' Hinv Hrun.
  - cbn in Hrun. unfold ret in Hrun. injection Hrun as _ <-. exact Hinv.
  - assert (Hinit : forall zapLevel service env,
              globalInStep (initialized zapLevel service env p)).
    { intros zapLevel service env. unfold globalInStep. cbn.
      exists (builtLogger zapLevel). repeat split. }
    destruct c as [level service env|module| |vars sync];
      cbn [replay] in Hrun; unfold bind in Hrun.
    + destruct (Init_cases level service env p)
        as [(zapLevel & _ & E)|(err & _ & E)]; rewrite E in Hrun.
      * eapply IH; [|exact Hrun]. apply Hinit.
      * eapply IH; [exact Hinv|exact Hrun].
    + unfold getLog at 1 in Hrun.
      destruct (Log p) as [g|] eqn:HLp.
      * rewrite (New_set module p g HLp) in Hrun.
        eapply IH; [exact Hinv|exact Hrun].
      * destruct (UnmarshalText
                    (ToLower (levelSource defaultLevel (environ p))))
          as [zapLevel|err] eqn:H.
        -- rewrite (New_unset_exact module p zapLevel HLp H) in Hrun.
           eapply IH; [|exact Hrun]. apply Hinit.
        -- rewrite (New_unset_panics module p err HLp H) in Hrun.
           discriminate.
    + destruct (Sync_returns p) as (r & E). rewrite E in Hrun.
      eapply IH; [exact Hinv|exact Hrun].
    + cbn in Hrun. eapply IH; [|exact Hrun]. exact Hinv.
Qed.

(** X9: through any sequence of calls from the start of the process, zap's
    global logger stays in step with [Log]: while [Log] is nil the global
    logger and the recorded names are untouched, and once [Log] is set the
    global logger is [Log] without its service and env fields. *)
Theorem zap_global_follows_Log cs vars sync last p :
  replay cs None (initialProcess vars sync) = Returned last p ->
  globalInStep p.
Proof.
  apply replay_globalInStep. unfold globalInStep. cbn. repeat split.
Qed.

Lemma Part000_Init_Ok level service env p zapLevel :
  UnmarshalText level = Ok zapLevel ->
  Part000.Init level service env p =
    Returned None (initialized zapLevel service env p).
Proof.
  intros H. unfold Part000.Init, bind, ret. rewrite H. reflexivity.
Qed.

Lemma Part000_Init_Err level service env p err :
  UnmarshalText level = Err err ->
  Part000.Init level service env p =
    Returned (Some (wrapError "invalid log level %q: %w" [level] err)) p.
Proof.
  intros H. unfold Part000.Init, bind, ret. rewrite H. reflexivity.
Qed.

(** X10: the variant's [Init] hands the level argument to the parser as it
    was passed and never reads LOG_LEVEL; on success it records and attaches
    service and env exactly as passed, empty strings included; on a
    rejected level it returns the wrapped error and changes nothing. *)
Theorem Part000_Init_verbatim level service env p :
  match UnmarshalText level with
  | Ok zapLevel =>
      exists l p',
        Part000.Init level service env p = Returned None p' /\
        Log p' = Some l /\
        fields l = [("service", service); ("env", env)] /\
        serviceName p' = service /\
        envName p' = env /\
        minLevel (core (base l)) = zapLevel
  | Err err =>
      Part000.Init level service env p =
        Returned (Some (wrapError "invalid log level %q: %w" [level] err)) p
  end.
Proof.
  destruct (UnmarshalText level) as [zapLevel|err] eqn:H.
  - rewrite (Part000_Init_Ok _ _ _ _ _ H).
    do 2 eexists. split; [reflexivity|]. repeat split.
  - apply Part000_Init_Err. exact H.
Qed.

(** X11: on arguments that need no normalisation (a level that is not
    empty and that trimming and lower-casing leave alone, service and env
    not blank) [Init] and the variant's [Init] return the same value and
    leave the same state. *)
Theorem Init_agrees_with_variant level service env p :
  TrimSpace level = level ->
  level <> "" ->
  ToLower level = level ->
  TrimSpace service <> "" ->
  TrimSpace env <> "" ->
  Init level service env p = Part000.Init level service env p.
Proof.
  intros Htrim Hne Hlow Hs He.
  assert (Hsrc : levelSource level (environ p) = level).
  { unfold levelSource. rewrite Htrim.
    apply String.eqb_neq in Hne. rewrite Hne. reflexivity. }
  destruct (Init_cases level service env p)
    as [(zapLevel & H & E)|(err & H & E)];
    rewrite E; rewrite Hsrc, Hlow in H.
  - rewrite (Part000_Init_Ok _ _ _ _ _ H).
    rewrite (orDefault_nonempty _ _ Hs), (orDefault_nonempty _ _ He).
    reflexivity.
  - rewrite (Part000_Init_Err _ _ _ _ _ H), Hsrc. reflexivity.
Qed.

(** X12: [New] and the variant's [New] return the same logger and leave the
    same state (or both panic), provided trimming and lower-casing leave
    "info" alone. *)
Theorem New_agrees_with_variant module p :
  TrimSpace "info" = "info" ->
  ToLower "info" = "info" ->
  New module p = Part000.New module p.
Proof.
  intros Htrim Hlow.
  assert (Hsrc : levelSource defaultLevel (environ p) = "info").
  { unfold levelSource, defaultLevel. rewrite Htrim. reflexivity. }
  destruct (Log p) as [g|] eqn:HLp.
  - rewrite (New_set module p g HLp).
    unfold Part000.New, bind, getLog, ret. rewrite HLp. cbn.
    rewrite HLp. reflexivity.
  - destruct (UnmarshalText "info") as [zapLevel|err] eqn:H.
    + rewrite (New_unset_exact module p zapLevel HLp)
        by (rewrite Hsrc, Hlow; exact H).
      unfold Part000.New, bind, getLog, ret. rewrite HLp.
      rewrite (Part000_Init_Ok _ _ _ _ _ H). reflexivity.
    + rewrite (New_unset_panics module p err HLp)
        by (rewrite Hsrc, Hlow; exact H).
      unfold Part000.New, bind, getLog, ret. rewrite HLp.
      rewrite (Part000_Init_Err _ _ _ _ _ H). cbn. rewrite HLp.
      reflexivity.
Qed.

(** X13: [Sync] is the variant's [Sync] with broken pipes filtered out: the
    variant returns whatever the flush reports, and [Sync] returns the same
    except that an error that is EPIPE becomes nil. *)
Theorem Sync_filters_variant p :
  Sync p =
    match Part000.Sync p with
    | Returned (Some err) q =>
        if errors_Is err EPIPE then Returned None q
        else Returned (Some err) q
    | other => other
    end.
Proof.
  unfold Sync, Part000.Sync, bind, getLog, LoggerSync, ret.
  destruct (Log p) as [l|]; [|reflexivity].
  destruct (stdoutSync p) as [err|]; [|reflexivity].
  destruct (errors_Is err EPIPE); reflexivity.
Qed.

End Further.

(** ** The further properties on concrete calls, with the ASCII library *)

Lemma Init_installs_zap_global_witness :
  Init "info" "orders-api" "prod" freshProcess =
    Returned None servingProcess /\
  exists z,
    globalL servingProcess = Some z /\
    context (core z) = [] /\
    Log servingProcess =
      Some (With (Sugar z) [("service", "orders-api"); ("env", "prod")]).
Proof.
  assert (E : Init "info" "orders-api" "prod" freshProcess =
              Returned None servingProcess) by (vm_compute; reflexivity).
  split; [exact E|].
  destruct (@Init_installs_zap_global asciiLibrary _ _ _ _ _ E)
    as (z & Hg & Hc & HL & _).
  exists z. split; [exact Hg|]. split; [exact Hc|exact HL].
Defined.

Lemma Init_fixed_conventions_witness :
  exists l,
    Log servingProcess = Some l /\
    encoding (core (base (With l [("module", "http")]))) = JSONEncoder /\
    sink (core (base (With l [("module", "http")]))) = Stdout /\
    TimeKey (encCfg (core (base (With l [("module", "http")])))) = "ts".
Proof.
  assert (E : Init "info" "orders-api" "prod" freshProcess =
              Returned None servingProcess) by (vm_compute; reflexivity).
  assert (HL : exists l, Log servingProcess = Some l)
    by (eexists; vm_compute; reflexivity).
  destruct HL as (l & HL).
  destruct (@Init_fixed_conventions asciiLibrary _ _ _ _ _ l
              [("module", "http")] E HL) as (Henc & Hsink & Hcfg).
  exists l. split; [exact HL|]. split; [exact Henc|]. split; [exact Hsink|].
  rewrite Hcfg. reflexivity.
Defined.

Lemma Init_forgets_prior_state_witness :
  exists p',
    Init " WARN " "billing-api" "" freshProcess = Returned None p' /\
    Init " WARN " "billing-api" "" servingProcess = Returned None p'.
Proof.
  assert (E : exists p',
             Init " WARN " "billing-api" "" freshProcess = Returned None p')
    by (eexists; vm_compute; reflexivity).
  destruct E as (p' & E). exists p'. split; [exact E|].
  exact (@Init_forgets_prior_state asciiLibrary _ _ _ freshProcess
           servingProcess None p' eq_refl eq_refl E).
Defined.

Lemma Sync_never_returns_broken_pipe_witness :
  Sync (withSync servingProcess
          (Some (PathError "sync" "/dev/stdout" (Errno EINVAL)))) =
    Returned (Some (PathError "sync" "/dev/stdout" (Errno EINVAL)))
      (withSync servingProcess
         (Some (PathError "sync" "/dev/stdout" (Errno EINVAL)))) /\
  ~ inChain (PathError "sync" "/dev/stdout" (Errno EINVAL)) (Errno EPIPE).
Proof.
  assert (E : Sync (withSync servingProcess
                      (Some (PathError "sync" "/dev/stdout" (Errno EINVAL)))) =
              Returned (Some (PathError "sync" "/dev/stdout" (Errno EINVAL)))
                (withSync servingProcess
                   (Some (PathError "sync" "/dev/stdout" (Errno EINVAL)))))
    by (vm_compute; reflexivity).
  split; [exact E|].
  exact (proj2 (proj2 (proj2 (Sync_never_returns_broken_pipe _ _ _ E)))).
Defined.

Lemma Init_level_filter_witness :
  exists p' l,
    Init "warn" "svc" "prod" freshProcess = Returned None p' /\
    Log p' = Some l /\
    check (With l [("module", "http")]) InfoLevel = None /\
    exists e,
      check (With l [("module", "http")]) ErrorLevel = Some e /\
      entryFields e =
        [("service", serviceName p'); ("env", envName p');
         ("module", "http")].
Proof.
  assert (E : exists p',
             Init "warn" "svc" "prod" freshProcess = Returned None p')
    by (eexists; vm_compute; reflexivity).
  destruct E as (p' & E).
  assert (HL : exists l, Log p' = Some l).
  { destruct (@Init_Ok asciiLibrary "warn" "svc" "prod" freshProcess
                WarnLevel eq_refl) as (l & q & E' & HL & _).
    rewrite E in E'. injection E' as <-. eauto. }
  destruct HL as (l & HL).
  assert (T : forall lvl,
             match check (With l [("module", "http")]) lvl with
             | Some e =>
                 (Level_int8 WarnLevel <= Level_int8 lvl)%Z /\
                 entryLevel e = lvl /\
                 entryFields e =
                   ([("service", serviceName p'); ("env", envName p')] ++
                    [("module", "http")])%list
             | None => (Level_int8 lvl < Level_int8 WarnLevel)%Z
             end).
  { intros lvl.
    exact (@Init_level_filter asciiLibrary "warn" "svc" "prod" freshProcess
             WarnLevel p' l [("module", "http")] lvl eq_refl E HL). }
  exists p', l. split; [exact E|]. split; [exact HL|]. split.
  - pose proof (T InfoLevel) as TI.
    destruct (check (With l [("module", "http")]) InfoLevel) as [e|].
    + destruct TI as (Hle & _). cbn in Hle. lia.
    + reflexivity.
  - pose proof (T ErrorLevel) as TE.
    destruct (check (With l [("module", "http")]) ErrorLevel) as [e|].
    + exists e. split; [reflexivity|]. exact (proj2 (proj2 TE)).
    + cbn in TE. lia.
Defined.

Lemma Log_stays_set_witness :
  exists last p' l',
    replay [CallInit "loud" "billing-api" "stage"; CallSync; CallNew "http";
            HostSets [("LOG_LEVEL", "nonsense")] (Some (Errno EPIPE));
            CallInit "" "" ""; CallSync]
      None servingProcess = Returned last p' /\
    Log p' = Some l'.
Proof.
  assert (E : exists last p',
             replay [CallInit "loud" "billing-api" "stage"; CallSync;
                     CallNew "http";
                     HostSets [("LOG_LEVEL", "nonsense")]
                       (Some (Errno EPIPE));
                     CallInit "" "" ""; CallSync]
               None servingProcess = Returned last p')
    by (do 2 eexists; vm_compute; reflexivity).
  destruct E as (last & p' & E).
  assert (HL : exists l, Log servingProcess = Some l)
    by (eexists; vm_compute; reflexivity).
  destruct HL as (l & HL).
  destruct (@Log_stays_set asciiLibrary _ _ _ _ _ _ HL E) as (l' & HL').
  exists last, p', l'. split; [exact E|exact HL'].
Defined.

Lemma zap_global_follows_Log_witness :
  replay demoCalls None freshProcess =
    Returned (Some ("", " canary ")) demoFinal /\
  globalInStep demoFinal.
Proof.
  assert (E : replay demoCalls None freshProcess =
              Returned (Some ("", " canary ")) demoFinal)
    by (vm_compute; reflexivity).
  split; [exact E|].
  exact (@zap_global_follows_Log asciiLibrary _ _ _ _ _ E).
Defined.

Lemma Init_agrees_with_variant_witness :
  Init "debug" "orders-api" "prod" servingProcess =
    Part000.Init "debug" "orders-api" "prod" servingProcess.
Proof.
  apply (@Init_agrees_with_variant asciiLibrary).
  - reflexivity.
  - discriminate.
  - reflexivity.
  - discriminate.
  - discriminate.
Defined.

Lemma New_agrees_with_variant_witness :
  New "http" freshProcess = Part000.New "http" freshProcess.
Proof.
  exact (@New_agrees_with_variant asciiLibrary "http" freshProcess
           eq_refl eq_refl).
Defined.

(** Where the two copies differ: blank identities, levels that need
    normalising, and a broken pipe on flush. *)
Example variant_keeps_blank_identity :
  exists l p',
    Part000.Init "info" "" "  " freshProcess = Returned None p' /\
    Log p' = Some l /\
    fields l = [("service", ""); ("env", "  ")].
Proof.
  do 2 eexists. split; [vm_compute; reflexivity|].
  split; vm_compute; reflexivity.
Qed.

Example variant_rejects_padded_level :
  exists e,
    Part000.Init " info" "svc" "prod" freshProcess =
      Returned (Some e) freshProcess.
Proof. eexists. vm_compute. reflexivity. Qed.

Example variant_surfaces_broken_pipe :
  Part000.Sync (withSync servingProcess (Some (Errno EPIPE))) =
    Returned (Some (Errno EPIPE))
      (withSync servingProcess (Some (Errno EPIPE))).
Proof. vm_compute. reflexivity. Qed.
